(** * A shallow embedding of the drift-toolkit engine exercised by the
    dt-e2e-tests suite.

    The engine itself (the npm package [drift-toolkit]) is not part of this
    repository: its tests under [tests/] and the bug list in [issues.md]
    are.  The components below are therefore modelled from the spec
    (sections 3, 4 and 6), with the observations the tests make wherever
    they pin down a detail the spec leaves open.  The helpers of
    [src/utils.ts], which the tests call, are modelled from their code. *)

From stdpp Require Import base gmap strings list.
From Stdlib Require Import String Ascii Strings.Byte.

#[local] Set Warnings "-abstract-large-number".

(* ------------------------------------------------------------------ *)
(** ** Filesystem *)

Definition path := string.

(** File contents are raw bytes, compared byte for byte. *)
Definition bytes := list Byte.byte.

#[global] Instance byte_eq_dec : EqDecision Byte.byte := Byte.byte_eq_dec.

(** A directory entry: a readable file with its bytes, or a file the
    process may not read (EACCES). Directories are implicit in paths. *)
Inductive entry :=
| File (contents : bytes)
| Unreadable.

(** The filesystem: absolute path to entry. *)
Abbreviation fs_t := (gmap path entry).

(** [join(base, p)] from node's [path] module, without normalisation. *)
Definition path_join (base p : path) : path :=
  String.append base (String.append "/" p).

Definition existsSync (fs : fs_t) (p : path) : bool :=
  match fs !! p with Some _ => true | None => false end.

(** Results of fallible library calls. *)
Inductive res (E A : Type) :=
| Ok (a : A)
| Err (e : E).
Arguments Ok {E A} a.
Arguments Err {E A} e.

(* ------------------------------------------------------------------ *)
(** ** Repository metadata reader (spec 4.1) *)

Definition METADATA_YAML := "repo-metadata.yaml".
Definition METADATA_YML := "repo-metadata.yml".
Definition CHECK_TOML := "check.toml".

Record ScannabilityResult := {
  scannable : bool;
  hasMetadata : bool;
  hasCheckToml : bool;
}.

(** Modelled from the spec: the metadata file lookup of drift-toolkit,
    trying [repo-metadata.yaml] then [repo-metadata.yml]. *)
Definition findMetadataPath (fs : fs_t) (repoPath : path) : option path :=
  let yaml := path_join repoPath METADATA_YAML in
  let yml := path_join repoPath METADATA_YML in
  if existsSync fs yaml then Some yaml
  else if existsSync fs yml then Some yml
  else None.

(** Modelled from the spec: [isScannableRepo(repoPath)]; it only reads the
    filesystem and reports, leaving the decision to its caller. *)
Definition isScannableRepo (fs : fs_t) (repoPath : path) : ScannabilityResult :=
  let hm := match findMetadataPath fs repoPath with Some _ => true | None => false end in
  let hc := existsSync fs (path_join repoPath CHECK_TOML) in
  {| scannable := hm && hc; hasMetadata := hm; hasCheckToml := hc |}.

(* ------------------------------------------------------------------ *)
(** ** Integrity checker (spec 4.2) *)

Inductive Severity := Critical | High | Medium | Low.

Record IntegrityCheck := {
  ic_file : path;
  ic_approved : path;
  ic_severity : Severity;
}.

Inductive IntegrityStatus := Match | Drift | Missing.

Record IntegrityResult := {
  ir_file : path;
  ir_status : IntegrityStatus;
  ir_severity : Severity;
}.

Inductive IntegrityError :=
| PermissionDenied (p : path)
| ApprovedSourceMissing (p : path).

Definition mkIntegrityResult (c : IntegrityCheck) (s : IntegrityStatus) : IntegrityResult :=
  {| ir_file := ic_file c; ir_status := s; ir_severity := ic_severity c |}.

(** Modelled from the spec: [checkIntegrity(check, repoPath, approvedDir)].
    The target is read first (absent: [missing]; unreadable:
    [PermissionDenied]); then the approved file (absent: an explicit
    error, never [match]); then the whole contents are compared. *)
Definition checkIntegrity (c : IntegrityCheck) (fs : fs_t)
    (repoPath approvedDir : path) : res IntegrityError IntegrityResult :=
  let target := path_join repoPath (ic_file c) in
  let approved := path_join approvedDir (ic_approved c) in
  match fs !! target with
  | None => Ok (mkIntegrityResult c Missing)
  | Some Unreadable => Err (PermissionDenied target)
  | Some (File a) =>
      match fs !! approved with
      | None => Err (ApprovedSourceMissing approved)
      | Some Unreadable => Err (PermissionDenied approved)
      | Some (File b) =>
          Ok (mkIntegrityResult c (if decide (a = b) then Match else Drift))
      end
  end.

(** [checkAllIntegrity] checks each protected file in order. *)
Definition checkAllIntegrity (checks : list IntegrityCheck) (fs : fs_t)
    (repoPath approvedDir : path) : list (res IntegrityError IntegrityResult) :=
  map (fun c => checkIntegrity c fs repoPath approvedDir) checks.

(* ------------------------------------------------------------------ *)
(** ** Scan runner (spec 4.4) *)

(** What the shell does with a command in a working directory when left to
    run: its exit status, its output and how long it would take. *)
Record ProcOutcome := {
  po_exit : nat;
  po_stdout : string;
  po_stderr : string;
  po_duration_ms : nat;
}.

Abbreviation Shell := (string -> path -> ProcOutcome).

(** One subprocess the runner started, with the time it was allowed to run
    and whether it was terminated at its deadline. *)
Record Exec := {
  ex_cmd : string;
  ex_cwd : path;
  ex_elapsed_ms : nat;
  ex_killed : bool;
}.

(** The runner threads the log of the subprocesses it started. *)
Definition M (A : Type) : Type := list Exec -> A * list Exec.

Definition ret {A} (a : A) : M A := fun tr => (a, tr).
Definition mbind {A B} (m : M A) (f : A -> M B) : M B :=
  fun tr => let '(a, tr') := m tr in f a tr'.
Definition log_exec (e : Exec) : M unit := fun tr => (tt, tr ++ [e]).

Notation "x <- m ;; k" := (mbind m (fun x => k))
  (at level 100, m at next level, right associativity).

Record ScanDefinition := {
  sd_name : string;
  sd_command : string;
  sd_description : option string;
  sd_if_file : option path;
  sd_if_command : option string;
  sd_timeout : option nat;            (* milliseconds *)
  sd_tiers : option (list string);
  sd_severity : option Severity;
}.

Record ScanContext := { ctx_tier : option string }.

Inductive ScanStatus := Pass | Fail | Skip.

(** The fields the tests read back from a [runScan] result: [scan],
    [status], [exitCode] and [stdout].  [stderr] and [severity] come back
    [undefined] (tests/cli-scan.test.ts, issues.md #12 and #13) and are not
    part of the model. *)
Record ScanResult := {
  scan : string;
  status : ScanStatus;
  exitCode : nat;
  stdout : string;
}.

(** Exit status reported for a process terminated at its deadline: node's
    [execSync] leaves [status] null there, read as [status || 1] as in the
    repository's own [exec] helper. *)
Definition TIMEOUT_EXIT_CODE : nat := 1.

Section Runner.

Variable sh : Shell.

(** The default deadline, [DEFAULTS.scanTimeoutSeconds], in seconds. *)
Variable scanTimeoutSeconds : nat.

(** Modelled from the spec: the deadline of a scan is its [timeout], in
    milliseconds (spec 3, [timeout?: ms]); the default applies when it is
    unset. *)
Definition deadline_ms (sd : ScanDefinition) : nat :=
  match sd_timeout sd with
  | Some ms => ms
  | None => 1000 * scanTimeoutSeconds
  end.

(** Modelled from the spec: run one command in [cwd] under a deadline; a
    process that outlives it is terminated there and reports a nonzero
    exit status. *)
Definition run_cmd (c : string) (cwd : path) (deadline : nat) : M (nat * string) :=
  let o := sh c cwd in
  if deadline <? po_duration_ms o then
    _ <- log_exec {| ex_cmd := c; ex_cwd := cwd; ex_elapsed_ms := deadline; ex_killed := true |} ;;
    ret (TIMEOUT_EXIT_CODE, ""%string)
  else
    _ <- log_exec {| ex_cmd := c; ex_cwd := cwd; ex_elapsed_ms := po_duration_ms o; ex_killed := false |} ;;
    ret (po_exit o, po_stdout o).

(** Gate 1: the tier filter. *)
Definition tierAllowed (sd : ScanDefinition) (ctx : ScanContext) : bool :=
  match sd_tiers sd with
  | None => true
  | Some ts =>
      match ctx_tier ctx with
      | None => false
      | Some t => bool_decide (t ∈ ts)
      end
  end.

(** Gate 2: [if_file]. *)
Definition ifFileHolds (fs : fs_t) (repoPath : path) (sd : ScanDefinition) : bool :=
  match sd_if_file sd with
  | None => true
  | Some f => existsSync fs (path_join repoPath f)
  end.

Definition skipResult (sd : ScanDefinition) : ScanResult :=
  {| scan := sd_name sd; status := Skip; exitCode := 0; stdout := "" |}.

Definition runCommand (repoPath : path) (sd : ScanDefinition) : M ScanResult :=
  r <- run_cmd (sd_command sd) repoPath (deadline_ms sd) ;;
  let '(code, out) := r in
  ret {| scan := sd_name sd;
         status := if code =? 0 then Pass else Fail;
         exitCode := code;
         stdout := out |}.

(** Modelled from the spec: [runScan(scan, repoPath, context)]; the gates in
    order tier, [if_file], [if_command], then the command itself. *)
Definition runScan (fs : fs_t) (repoPath : path) (sd : ScanDefinition)
    (ctx : ScanContext) : M ScanResult :=
  if negb (tierAllowed sd ctx) then ret (skipResult sd)
  else if negb (ifFileHolds fs repoPath sd) then ret (skipResult sd)
  else match sd_if_command sd with
       | Some c =>
           r <- run_cmd c repoPath (deadline_ms sd) ;;
           if fst r =? 0 then runCommand repoPath sd else ret (skipResult sd)
       | None => runCommand repoPath sd
       end.

(** [runAllScans] runs the definitions in order under the same context. *)
Fixpoint runAllScans (fs : fs_t) (repoPath : path) (sds : list ScanDefinition)
    (ctx : ScanContext) : M (list ScanResult) :=
  match sds with
  | [] => ret []
  | sd :: rest =>
      r <- runScan fs repoPath sd ctx ;;
      rs <- runAllScans fs repoPath rest ctx ;;
      ret (r :: rs)
  end.

End Runner.

(* ------------------------------------------------------------------ *)
(** ** Dependency change detector (spec 4.5) *)

(** A commit's tree: repository-relative path to blob contents. *)
Abbreviation tree := (gmap path bytes).

(** The git collaborator: a content-addressed store of commits and the
    references (branch names, [HEAD]) naming some of them. *)
Record GitRepo := {
  commits : gmap string tree;
  refs : gmap string string;
}.

(** [resolveCommit(ref)]: a full sha names itself, otherwise the ref table. *)
Definition resolveCommit (g : GitRepo) (r : string) : option string :=
  match commits g !! r with
  | Some _ => Some r
  | None => refs g !! r
  end.

Inductive ChangeStatus := Added | Modified | Deleted.

(** [diffTree(base, target)]: paths of [base] gone or changed in [target],
    then paths new in [target]. *)
Definition diffTree (base target : tree) : list (path * ChangeStatus) :=
  omap (fun pb : path * bytes =>
          match target !! pb.1 with
          | None => Some (pb.1, Deleted)
          | Some b' => if decide (pb.2 = b') then None else Some (pb.1, Modified)
          end) (map_to_list base)
  ++ omap (fun pb : path * bytes =>
             match base !! pb.1 with
             | None => Some (pb.1, Added)
             | Some _ => None
             end) (map_to_list target).

(** Glob matching: [*] stands for any run of characters other than [/],
    every other character for itself. *)
Fixpoint globMatch (p s : string) {struct p} : bool :=
  match p with
  | EmptyString => match s with EmptyString => true | String _ _ => false end
  | String c p' =>
      if Ascii.eqb c "*"%char then
        (fix star (s : string) : bool :=
           globMatch p' s ||
           match s with
           | EmptyString => false
           | String d s' => if Ascii.eqb d "/"%char then false else star s'
           end) s
      else
        match s with
        | EmptyString => false
        | String d s' => Ascii.eqb c d && globMatch p' s'
        end
  end.

Definition endsWith (suffix s : string) : bool :=
  let n := String.length s in
  let m := String.length suffix in
  (m <=? n) && String.eqb (substring (n - m) m s) suffix.

(** The check manifest is tracked wherever it sits in the tree. *)
Definition isAlwaysTracked (p : path) : bool :=
  String.eqb p CHECK_TOML || endsWith (String.append "/" CHECK_TOML) p.

Record DependencyPattern := {
  dp_checkType : string;
  dp_pattern : string;
}.

Record DependencyChange := {
  dc_file : path;
  dc_status : ChangeStatus;
  dc_checkType : string;
  dc_alwaysTracked : bool;
}.

Record DependencyChangesDetection := {
  changes : list DependencyChange;
  byCheck : gmap string (list DependencyChange);
  alwaysTrackedChanges : list DependencyChange;
  totalTrackedFiles : nat;
  hasChanges : bool;
}.

Record DetectOptions := {
  baseCommit : string;
  targetCommit : string;
}.

Inductive GitError := CommitNotFound (ref : string).

(** A changed path is reported under the manifest's own check type when it
    is the manifest, else under the first pattern matching it, else not at
    all. *)
Definition classify (pats : list DependencyPattern) (pc : path * ChangeStatus)
    : option DependencyChange :=
  let '(p, st) := pc in
  if isAlwaysTracked p then
    Some {| dc_file := p; dc_status := st; dc_checkType := CHECK_TOML; dc_alwaysTracked := true |}
  else
    match List.find (fun dp => globMatch (dp_pattern dp) p) pats with
    | Some dp =>
        Some {| dc_file := p; dc_status := st; dc_checkType := dp_checkType dp;
                dc_alwaysTracked := false |}
    | None => None
    end.

Definition isTracked (pats : list DependencyPattern) (p : path) : bool :=
  isAlwaysTracked p || existsb (fun dp => globMatch (dp_pattern dp) p) pats.

Definition groupByCheck (cs : list DependencyChange) : gmap string (list DependencyChange) :=
  foldr (fun ch m => <[dc_checkType ch := ch :: default [] (m !! dc_checkType ch)]> m) ∅ cs.

(** Modelled from the spec: [detectDependencyChanges(repoPath, options)]. *)
Definition detectDependencyChanges (g : GitRepo) (pats : list DependencyPattern)
    (opts : DetectOptions) : res GitError DependencyChangesDetection :=
  match resolveCommit g (baseCommit opts) ≫= fun b => commits g !! b with
  | None => Err (CommitNotFound (baseCommit opts))
  | Some tb =>
      match resolveCommit g (targetCommit opts) ≫= fun t => commits g !! t with
      | None => Err (CommitNotFound (targetCommit opts))
      | Some tgt =>
          let cs := omap (classify pats) (diffTree tb tgt) in
          Ok {| changes := cs;
                byCheck := groupByCheck cs;
                alwaysTrackedChanges := filter (fun ch => dc_alwaysTracked ch = true) cs;
                totalTrackedFiles :=
                  List.length (filter (fun p => isTracked pats p = true) (map fst (map_to_list tgt)));
                hasChanges := negb (bool_decide (cs = [])) |}
      end
  end.

(* ------------------------------------------------------------------ *)
(** ** Per-repository scan (spec 2 and 4.1) *)

Record RepoReport := {
  rr_scannability : ScannabilityResult;
  rr_integrity : list (res IntegrityError IntegrityResult);
  rr_scans : list ScanResult;
}.

(** Modelled from the spec: the single-repository scan.  Scannability is
    reported with the results, for the caller to act on; it does not stop
    the integrity checks or the scans. *)
Definition scanRepo (sh : Shell) (scanTimeoutSeconds : nat) (fs : fs_t)
    (repoPath approvedDir : path) (checks : list IntegrityCheck)
    (sds : list ScanDefinition) (ctx : ScanContext) : M RepoReport :=
  let s := isScannableRepo fs repoPath in
  let integrity := checkAllIntegrity checks fs repoPath approvedDir in
  rs <- runAllScans sh scanTimeoutSeconds fs repoPath sds ctx ;;
  ret {| rr_scannability := s; rr_integrity := integrity; rr_scans := rs |}.

(* ------------------------------------------------------------------ *)
(** ** Fix engine (spec 4.7) *)

Record FixOptions := {
  dryRun : bool;
  fileFilter : option (list path);
}.

Inductive FixAction :=
| Overwrite (file : path)
| Create (file : path).

Inductive FixError :=
| FixCheckFailed (e : IntegrityError)
| FixApprovedSourceMissing (approved : path).

Abbreviation FixPlan := (list (res FixError FixAction)).

(** One protected file: nothing to do on [match]; on [drift] or [missing]
    the approved bytes are written over (or into) the target, unless this
    is a dry run. *)
Definition fixOne (c : IntegrityCheck) (repoPath approvedDir : path) (dry : bool)
    (fs : fs_t) : option (res FixError FixAction) * fs_t :=
  let target := path_join repoPath (ic_file c) in
  let approved := path_join approvedDir (ic_approved c) in
  match checkIntegrity c fs repoPath approvedDir with
  | Err e => (Some (Err (FixCheckFailed e)), fs)
  | Ok r =>
      match ir_status r with
      | Match => (None, fs)
      | st =>
          match fs !! approved with
          | Some (File b) =>
              let act := match st with
                         | Missing => Create (ic_file c)
                         | _ => Overwrite (ic_file c)
                         end in
              (Some (Ok act), if dry then fs else <[target := File b]> fs)
          | _ => (Some (Err (FixApprovedSourceMissing approved)), fs)
          end
      end
  end.

Fixpoint fixAll (checks : list IntegrityCheck) (repoPath approvedDir : path)
    (dry : bool) (fs : fs_t) : FixPlan * fs_t :=
  match checks with
  | [] => ([], fs)
  | c :: rest =>
      let '(o, fs1) := fixOne c repoPath approvedDir dry fs in
      let '(plan, fs2) := fixAll rest repoPath approvedDir dry fs1 in
      (option_list o ++ plan, fs2)
  end.

Definition selectChecks (ff : option (list path)) (checks : list IntegrityCheck)
    : list IntegrityCheck :=
  match ff with
  | None => checks
  | Some files => filter (fun c => ic_file c ∈ files) checks
  end.

(** Modelled from the spec: [drift code fix]; returns the plan and the
    filesystem afterwards. *)
Definition runFix (checks : list IntegrityCheck) (fs : fs_t)
    (repoPath approvedDir : path) (opts : FixOptions) : FixPlan * fs_t :=
  fixAll (selectChecks (fileFilter opts) checks) repoPath approvedDir (dryRun opts) fs.

(* ------------------------------------------------------------------ *)
(** ** Sample inputs, after the tests *)

Definition b (s : string) : bytes := list_byte_of_string s.

Definition REPO : path := "/tmp/drift-e2e-repo".
Definition APPROVED : path := "/tmp/drift-e2e-approved".

Definition codeowners : IntegrityCheck :=
  {| ic_file := "CODEOWNERS"; ic_approved := "CODEOWNERS"; ic_severity := Critical |}.

Definition team_a : bytes := b "* @team-a
".
Definition team_b : bytes := b "* @team-b
".

Definition fs_drift : fs_t :=
  <[path_join REPO "CODEOWNERS" := File team_a]>
  (<[path_join APPROVED "CODEOWNERS" := File team_b]> ∅).

(** The repository of the empty-approved-file fix test. *)
Definition fs_empty_approved : fs_t :=
  <[path_join REPO "CODEOWNERS" := File (b "* @some-team
")]>
  (<[path_join APPROVED "CODEOWNERS" := File []]> ∅).

(** A repository with one commit, [HEAD], holding a check manifest. *)
Definition tree1 : tree := {[ "check.toml" := b "[checks]
" ]}.
Definition git1 : GitRepo :=
  {| commits := {[ "5e1f0c2a" := tree1 ]}; refs := {[ "HEAD" := "5e1f0c2a" ]} |}.

Definition fs_meta_only : fs_t :=
  {[ path_join REPO METADATA_YAML := File (b "tier: production") ]}.
Definition fs_yml_only : fs_t :=
  {[ path_join REPO METADATA_YML := File (b "tier: production") ]}.

(** A shell that knows a few commands; [sleep n] takes [n] seconds. *)
Definition test_sh (c : string) (cwd : path) : ProcOutcome :=
  if String.eqb c "sleep 5" then
    {| po_exit := 0; po_stdout := ""; po_stderr := ""; po_duration_ms := 5000 |}
  else if String.eqb c "sleep 10" then
    {| po_exit := 0; po_stdout := ""; po_stderr := ""; po_duration_ms := 10000 |}
  else if String.eqb c "exit 1" then
    {| po_exit := 1; po_stdout := ""; po_stderr := ""; po_duration_ms := 5 |}
  else if String.eqb c "test -f nonexistent-file" then
    {| po_exit := 1; po_stdout := ""; po_stderr := ""; po_duration_ms := 5 |}
  else {| po_exit := 0; po_stdout := "ok"; po_stderr := ""; po_duration_ms := 5 |}.

Definition mkScan (name cmd : string) : ScanDefinition :=
  {| sd_name := name; sd_command := cmd; sd_description := None; sd_if_file := None;
     sd_if_command := None; sd_timeout := None; sd_tiers := None; sd_severity := Some Low |}.

Definition no_ctx : ScanContext := {| ctx_tier := None |}.
Definition internal_ctx : ScanContext := {| ctx_tier := Some "internal" |}.

(** The scans of the gating tests of tests/cli-scan.test.ts. *)
Definition production_only : ScanDefinition :=
  {| sd_name := "production-only"; sd_command := "echo 'production'"; sd_description := None;
     sd_if_file := None; sd_if_command := None; sd_timeout := None;
     sd_tiers := Some ["production"]; sd_severity := Some High |}.
Definition npm_test : ScanDefinition :=
  {| sd_name := "npm-test"; sd_command := "npm test"; sd_description := None;
     sd_if_file := Some "package.json"; sd_if_command := None; sd_timeout := None;
     sd_tiers := None; sd_severity := Some High |}.
Definition conditional_scan : ScanDefinition :=
  {| sd_name := "conditional-scan"; sd_command := "echo 'should not run'";
     sd_description := None; sd_if_file := None;
     sd_if_command := Some "test -f nonexistent-file"; sd_timeout := None;
     sd_tiers := None; sd_severity := Some Low |}.

(** The scan of the timeout scenario: [timeout: 500] around [sleep 5]. *)
Definition sleep5_timeout500 : ScanDefinition :=
  {| sd_name := "slow-scan"; sd_command := "sleep 5"; sd_description := None;
     sd_if_file := None; sd_if_command := None; sd_timeout := Some 500;
     sd_tiers := None; sd_severity := Some Low |}.

Definition eslint_pattern : DependencyPattern :=
  {| dp_checkType := "eslint"; dp_pattern := ".eslintrc*" |}.

(* ------------------------------------------------------------------ *)
(** ** Test utilities (src/utils.ts)

    The helpers every test file calls.  [execSync] and the clock are
    node's; they are parameters, modelled as the helpers use them. *)

(** *** The repository name of [createMockRepo] *)

Definition isSlash (c : ascii) : bool := Ascii.eqb c "/".

(** [s.split("/")]. *)
Fixpoint splitSlash (s : string) : list string :=
  match s with
  | EmptyString => [""]
  | String c s' =>
      let segs := splitSlash s' in
      if isSlash c then "" :: segs
      else match segs with
           | seg :: rest => String c seg :: rest
           | [] => [String c ""]
           end
  end.

(** [tempDir.split("/").pop() || "temp"]: the [name] of the repository
    [createMockRepo] returns. *)
Definition repoName (tempDir : path) : string :=
  match last (splitSlash tempDir) with
  | Some seg => if String.eqb seg "" then "temp" else seg
  | None => "temp"
  end.

Fixpoint hasSlash (s : string) : bool :=
  match s with
  | EmptyString => false
  | String c s' => isSlash c || hasSlash s'
  end.

(** *** [waitFor] *)

(** How [waitFor] rejects: with [Condition not met within ${timeout}ms],
    or with the error [condition()] threw or rejected with at poll [k]. *)
Inductive WaitError :=
| ConditionNotMet (timeout : Z)
| ConditionThrew (k : nat).

(** The loop of [waitFor].  [now j] is the [j]-th reading of [Date.now()]
    the function takes: [now 0] is [start], [now (S k)] the one of the
    [while] test before poll [k]; the [interval] sleeps between polls and
    the time the condition takes are in these readings.  [condition k] is
    what [await condition()] gives at poll [k]: [Some b], or [None] when it
    throws or rejects.  [Ok k] is the promise resolving after poll [k].  The
    real loop has no bound; [fuel] bounds the polls. *)
Fixpoint waitFor_loop (condition : nat -> option bool) (now : nat -> Z) (start timeout : Z)
    (fuel k : nat) : res WaitError nat :=
  match fuel with
  | O => Err (ConditionNotMet timeout)
  | S fuel' =>
      if Z.ltb (now (S k) - start) timeout then
        match condition k with
        | Some true => Ok k
        | Some false => waitFor_loop condition now start timeout fuel' (S k)
        | None => Err (ConditionThrew k)
        end
      else Err (ConditionNotMet timeout)
  end.

(** [waitFor(condition, timeout, interval)]; [start = Date.now()]. *)
Definition waitFor (condition : nat -> option bool) (now : nat -> Z) (timeout : Z) (fuel : nat)
    : res WaitError nat :=
  waitFor_loop condition now (now 0) timeout fuel 0.

(** *** [exec] and the drift CLI wrappers *)

(** How [execSync] ends: it returns the child's stdout, or throws an error
    whose [stdout], [stderr] and [status] may be missing ([status] is null
    for a child killed by a signal). *)
Inductive SyncOutcome :=
| Returned (out : string)
| Threw (out err : option string) (st : option nat).

Record ExecResult := {
  er_stdout : string;
  er_stderr : string;
  er_exitCode : nat;
}.

(** [NodeJS.ProcessEnv] as an options object holds it: a key may be set to
    [undefined] ([None]). *)
Abbreviation ProcessEnv := (gmap string (option string)).

Record ExecOptions := {
  opt_cwd : option path;
  opt_env : option ProcessEnv;
}.

(** The [try]/[catch] of [exec]: [x || ""] and [status || 1]. *)
Definition toExecResult (o : SyncOutcome) : ExecResult :=
  match o with
  | Returned out => {| er_stdout := out; er_stderr := ""; er_exitCode := 0 |}
  | Threw out err st =>
      {| er_stdout := match out with Some s => s | None => "" end;
         er_stderr := match err with Some s => s | None => "" end;
         er_exitCode := match st with Some (S n) => S n | _ => 1 end |}
  end.

(** The environment a child process gets from an [env] option: node leaves
    out every key whose value is [undefined]. *)
Definition childEnv (e : ProcessEnv) : gmap string string := omap id e.

(** Text is held as its UTF-8 bytes ([execSync] decodes the child's output
    as UTF-8).  [String.prototype.trim] removes JavaScript's WhiteSpace and
    LineTerminator code points: U+0009 to U+000D, U+0020, U+00A0, U+1680,
    U+2000 to U+200A, U+2028, U+2029, U+202F, U+205F, U+3000 and U+FEFF,
    whose encodings these are. *)
Definition utf8 (l : list nat) : string :=
  fold_right (fun n s => String (ascii_of_nat n) s) EmptyString l.

Definition jsWhitespace : list string :=
  map utf8
    ([[9]; [10]; [11]; [12]; [13]; [32]; [194; 160]; [225; 154; 128]] ++
     map (fun n => [226; 128; n]) (seq 128 11) ++
     [[226; 128; 168]; [226; 128; 169]; [226; 128; 175]; [226; 129; 159];
      [227; 128; 128]; [239; 187; 191]]).

(** [s] without the prefix [e], if it has it. *)
Fixpoint stripPrefix (e s : string) : option string :=
  match e, s with
  | EmptyString, _ => Some s
  | String a e', String c s' => if Ascii.eqb a c then stripPrefix e' s' else None
  | String _ _, EmptyString => None
  end.

(** [s] without a leading member of [ws], if it has one. *)
Fixpoint stripAny (ws : list string) (s : string) : option string :=
  match ws with
  | [] => None
  | e :: ws' =>
      match stripPrefix e s with
      | Some r => Some r
      | None => stripAny ws' s
      end
  end.

(** Drops leading members of [ws] while there are; each step drops at
    least a byte, so [fuel = String.length s] is enough. *)
Fixpoint trimStartWith (ws : list string) (fuel : nat) (s : string) : string :=
  match fuel with
  | O => s
  | S fuel' =>
      match stripAny ws s with
      | Some r => trimStartWith ws fuel' r
      | None => s
      end
  end.

Fixpoint srev (s : string) : string :=
  match s with
  | EmptyString => EmptyString
  | String c s' => String.append (srev s') (String c EmptyString)
  end.

Definition trimStart (s : string) : string :=
  trimStartWith jsWhitespace (String.length s) s.

(** The end is trimmed as the start of the reversed bytes; UTF-8 is
    self-synchronising, so a trailing encoding of a whitespace code point is
    the last code point. *)
Definition trimEnd (s : string) : string :=
  srev (trimStartWith (map srev jsWhitespace) (String.length s) (srev s)).

(** [String.prototype.trim]. *)
Definition trim (s : string) : string := trimEnd (trimStart s).



Inductive DriftError :=
| DriftFailed (args : string) (r : ExecResult)      (* "drift ${args} failed with exit code ..." *)
| DriftSucceeded (args : string) (r : ExecResult).  (* "drift ${args} should have failed ..." *)

Section Exec.

(** node's [execSync(command, { cwd, env })], with the environment the
    child gets. *)
Variable execSync : string -> option path -> gmap string string -> SyncOutcome.

(** [process.env]. *)
Variable process_env : gmap string string.

(** [{ ...process.env, ...options.env }]: a key of [options.env] wins, also
    when its value is [undefined]. *)
Definition execEnv (o : ExecOptions) : ProcessEnv :=
  match opt_env o with Some e => e | None => ∅ end ∪ (Some <$> process_env).

Definition exec (command : string) (o : ExecOptions) : ExecResult :=
  toExecResult (execSync command (opt_cwd o) (childEnv (execEnv o))).

(** [getGitHubToken]: [execSync("gh auth token")] inherits [process.env]. *)
Definition getGitHubToken : string :=
  match execSync "gh auth token" None process_env with
  | Returned out => trim out
  | Threw _ _ _ => ""
  end.

Definition drift (args : string) (o : ExecOptions) : ExecResult :=
  exec (String.append "npx drift-toolkit " args) o.

(** [{ ...options, env: { ...options.env, GITHUB_TOKEN: token } }]. *)
Definition driftWithToken (args : string) (o : ExecOptions) : ExecResult :=
  let token := getGitHubToken in
  exec (String.append "npx drift-toolkit " args)
    {| opt_cwd := opt_cwd o;
       opt_env := Some (<["GITHUB_TOKEN" := Some token]>
                          (match opt_env o with Some e => e | None => ∅ end)) |}.

Definition driftExpectSuccess (args : string) (o : ExecOptions) : res DriftError ExecResult :=
  let result := drift args o in
  if negb (Nat.eqb (er_exitCode result) 0) then Err (DriftFailed args result)
  else Ok result.

Definition driftExpectFailure (args : string) (o : ExecOptions) : res DriftError ExecResult :=
  let result := drift args o in
  if Nat.eqb (er_exitCode result) 0 then Err (DriftSucceeded args result)
  else Ok result.

End Exec.

(** *** Sample inputs of the helpers *)

Definition TMP : path := "/tmp/drift-e2e-Ab12Cd".

(** Readings of [Date.now()] as measured around [waitFor] with the default
    [interval] of 1000 ms: the polls drift later than [k * 1000]. *)
Definition clock_drift (j : nat) : Z :=
  match j with
  | 0 => 0 | 1 => 0 | 2 => 1003 | 3 => 2004 | 4 => 3009
  | _ => 3009 + 1000 * (Z.of_nat j - 4)
  end.

(** A condition that holds from poll 3 on. *)
Definition from_poll_3 (k : nat) : option bool := Some (Nat.leb 3 k).

Example checkIntegrity_drift_example :
  option_map ir_status
    (match checkIntegrity codeowners fs_drift REPO APPROVED with Ok r => Some r | Err _ => None end)
  = Some Drift.
Proof. vm_compute. reflexivity. Qed.

Example globMatch_examples :
  globMatch ".github/workflows/*.yml" ".github/workflows/ci.yml" = true /\
  globMatch ".github/workflows/*.yml" ".github/workflows/a/ci.yml" = false /\
  globMatch "*.json" "tsconfig.json" = true.
Proof. vm_compute. repeat split. Qed.

Example runScan_tier_example :
  fst (runScan test_sh 60 ∅ REPO
         {| sd_name := "production-only"; sd_command := "echo 'production'";
            sd_description := None; sd_if_file := None; sd_if_command := None;
            sd_timeout := None; sd_tiers := Some ["production"]; sd_severity := Some High |}
         {| ctx_tier := Some "internal" |} []) = skipResult (mkScan "production-only" "").
Proof. vm_compute. reflexivity. Qed.

(** The spec's scenario: [timeout: 500] around [sleep 5] is cut at 500 ms. *)
Example runScan_timeout_example :
  runScan test_sh 60 ∅ REPO sleep5_timeout500 {| ctx_tier := None |} []
  = ({| scan := "slow-scan"; status := Fail; exitCode := 1; stdout := "" |},
     [{| ex_cmd := "sleep 5"; ex_cwd := REPO; ex_elapsed_ms := 500; ex_killed := true |}]).
Proof. vm_compute. reflexivity. Qed.

(* ------------------------------------------------------------------ *)
(** ** Integrity checker *)

(** C2: the verdict of [checkIntegrity] is [missing] exactly when the
    target file is absent; when the target holds bytes [A] and the approved
    baseline bytes [B], it is [drift] exactly when [A <> B] and [match]
    exactly when [A = B], for byte lists of any length and content. *)
Theorem checkIntegrity_byte_exact (c : IntegrityCheck) (fs : fs_t)
    (repoPath approvedDir : path) :
  ((exists r, checkIntegrity c fs repoPath approvedDir = Ok r /\ ir_status r = Missing)
     <-> fs !! path_join repoPath (ic_file c) = None) /\
  (forall A B : bytes,
     fs !! path_join repoPath (ic_file c) = Some (File A) ->
     fs !! path_join approvedDir (ic_approved c) = Some (File B) ->
     exists r, checkIntegrity c fs repoPath approvedDir = Ok r /\
       ir_file r = ic_file c /\ ir_severity r = ic_severity c /\
       (ir_status r = Drift <-> A <> B) /\ (ir_status r = Match <-> A = B)).
Proof.
  unfold checkIntegrity. split.
  - destruct (fs !! path_join repoPath (ic_file c)) as [[a|]|] eqn:Ht.
    + split; [|discriminate].
      intros (r & Hr & Hs).
      destruct (fs !! path_join approvedDir (ic_approved c)) as [[b'|]|];
        try discriminate.
      injection Hr as <-. simpl in Hs. case_decide; discriminate.
    + split; [intros (r & Hr & _); discriminate | discriminate].
    + split; [done|]. intros _. eexists; split; [reflexivity|done].
  - intros A B Ht Ha. rewrite Ht, Ha.
    eexists; split; [reflexivity|]. simpl.
    repeat split; case_decide; done.
Qed.

(* ------------------------------------------------------------------ *)
(** ** Dependency change detector *)

Lemma omap_all_none {A B} (f : A -> option B) (l : list A) :
  Forall (fun x => f x = None) l -> omap f l = [].
Proof. induction 1 as [|x l Hx _ IH]; [done|]. simpl. by rewrite Hx. Qed.

(** Diffing a tree against itself reports no path. *)
Lemma diffTree_refl (t : tree) : diffTree t t = [].
Proof.
  unfold diffTree.
  rewrite !omap_all_none; [done| |];
    apply Forall_forall; intros [p v] Hin; apply elem_of_map_to_list in Hin;
    simpl; rewrite Hin; [done|]. by case_decide.
Qed.

(** C6: detecting dependency changes over the range [c..c], for a commit
    [c] of the repository, yields no change and [hasChanges = false]. *)
Theorem detectDependencyChanges_same_commit (g : GitRepo)
    (pats : list DependencyPattern) (c sha : string) (t : tree) :
  resolveCommit g c = Some sha ->
  commits g !! sha = Some t ->
  exists d, detectDependencyChanges g pats {| baseCommit := c; targetCommit := c |} = Ok d /\
    hasChanges d = false /\ changes d = [].
Proof.
  intros Hr Ht. unfold detectDependencyChanges. simpl.
  rewrite Hr. simpl. rewrite Ht.
  eexists; split; [reflexivity|]. simpl.
  rewrite diffTree_refl. simpl. split; [|done].
  reflexivity.
Qed.

(* ------------------------------------------------------------------ *)
(** ** Scan runner *)

Lemma run_cmd_nonzero (sh : Shell) (c : string) (cwd : path) (d : nat) (tr : list Exec) :
  po_exit (sh c cwd) <> 0 ->
  exists e, run_cmd sh c cwd d tr = ((fst (run_cmd sh c cwd d tr)), tr ++ [e]) /\
    ex_cmd e = c /\ fst (fst (run_cmd sh c cwd d tr)) <> 0.
Proof.
  intros Hx. unfold run_cmd, mbind, log_exec, ret.
  destruct (d <? po_duration_ms (sh c cwd)); simpl;
    eexists; (split; [reflexivity|]); simpl; split; try done.
Qed.

(** C7: the gates of [runScan] are tried in the order tier, [if_file],
    [if_command].  A failed tier filter skips with no subprocess started; a
    missing [if_file] (tier passed) skips with no subprocess started; an
    [if_command] exiting nonzero (earlier gates passed) skips after starting
    that one subprocess and never the scan's command. *)
Theorem runScan_gate_order (sh : Shell) (T : nat) (fs : fs_t) (repoPath : path)
    (sd : ScanDefinition) (ctx : ScanContext) (tr : list Exec) :
  (forall ts, sd_tiers sd = Some ts ->
     (forall t, ctx_tier ctx = Some t -> t ∉ ts) ->
     runScan sh T fs repoPath sd ctx tr = (skipResult sd, tr)) /\
  (forall f, tierAllowed sd ctx = true ->
     sd_if_file sd = Some f -> fs !! path_join repoPath f = None ->
     runScan sh T fs repoPath sd ctx tr = (skipResult sd, tr)) /\
  (forall c, tierAllowed sd ctx = true -> ifFileHolds fs repoPath sd = true ->
     sd_if_command sd = Some c -> po_exit (sh c repoPath) <> 0 ->
     exists e, runScan sh T fs repoPath sd ctx tr = (skipResult sd, tr ++ [e]) /\
       ex_cmd e = c).
Proof.
  unfold runScan. repeat split.
  - intros ts Hts Hnot. unfold tierAllowed. rewrite Hts.
    destruct (ctx_tier ctx) as [t|] eqn:Hc; [|done].
    rewrite bool_decide_eq_false_2; [done|]. by apply Hnot.
  - intros f Ht Hf Hnf. rewrite Ht. simpl.
    unfold ifFileHolds, existsSync. by rewrite Hf, Hnf.
  - intros c Ht Hf Hc Hx. rewrite Ht, Hf, Hc. simpl.
    destruct (run_cmd_nonzero sh c repoPath (deadline_ms T sd) tr Hx) as (e & He & Hce & Hnz).
    exists e. split; [|done].
    unfold mbind at 1. rewrite He.
    destruct (fst (fst (run_cmd sh c repoPath (deadline_ms T sd) tr))) as [|n] eqn:Hn;
      [done|]. reflexivity.
Qed.

(* ------------------------------------------------------------------ *)
(** ** Scannability *)

(** C8: [scannable] is [hasMetadata && hasCheckToml]; [hasMetadata] holds
    exactly when [repo-metadata.yaml] or [repo-metadata.yml] exists, the
    [.yaml] name being tried first; [hasCheckToml] holds exactly when
    [check.toml] exists; and the repository scan runs its integrity checks
    and scans whatever the gate says, handing the gate's result to the
    caller. *)
Theorem isScannableRepo_spec (fs : fs_t) (repoPath : path) :
  let s := isScannableRepo fs repoPath in
  scannable s = hasMetadata s && hasCheckToml s /\
  (hasMetadata s = true <->
     is_Some (fs !! path_join repoPath METADATA_YAML) \/
     is_Some (fs !! path_join repoPath METADATA_YML)) /\
  (hasCheckToml s = true <-> is_Some (fs !! path_join repoPath CHECK_TOML)) /\
  (is_Some (fs !! path_join repoPath METADATA_YAML) ->
     findMetadataPath fs repoPath = Some (path_join repoPath METADATA_YAML)) /\
  (fs !! path_join repoPath METADATA_YAML = None ->
     is_Some (fs !! path_join repoPath METADATA_YML) ->
     findMetadataPath fs repoPath = Some (path_join repoPath METADATA_YML)) /\
  (forall sh T approvedDir checks sds ctx tr,
     let '(rep, tr') := scanRepo sh T fs repoPath approvedDir checks sds ctx tr in
     rr_scannability rep = s /\
     rr_integrity rep = checkAllIntegrity checks fs repoPath approvedDir /\
     (rr_scans rep, tr') = runAllScans sh T fs repoPath sds ctx tr).
Proof.
  cbv zeta. unfold isScannableRepo, findMetadataPath, existsSync. simpl.
  split; [reflexivity|].
  split.
  { destruct (fs !! path_join repoPath METADATA_YAML), (fs !! path_join repoPath METADATA_YML);
      simpl; split; intros H;
      first [ done | by left; eexists | by right; eexists
            | destruct H as [[? H]|[? H]]; discriminate ]. }
  split.
  { destruct (fs !! path_join repoPath CHECK_TOML); split; intros H;
      first [ done | by eexists | destruct H as [? H]; discriminate ]. }
  split.
  { intros [v Hv]. by rewrite Hv. }
  split.
  { intros Hy [v Hv]. by rewrite Hy, Hv. }
  intros sh T approvedDir checks sds ctx tr.
  unfold scanRepo, mbind, ret.
  destruct (runAllScans sh T fs repoPath sds ctx tr); simpl.
  unfold isScannableRepo, findMetadataPath, existsSync. done.
Qed.

(* ------------------------------------------------------------------ *)
(** ** Fix engine *)

Lemma fixOne_dry_fs (c : IntegrityCheck) (repoPath approvedDir : path) (fs : fs_t) :
  snd (fixOne c repoPath approvedDir true fs) = fs.
Proof.
  unfold fixOne.
  destruct (checkIntegrity c fs repoPath approvedDir) as [r|e]; [|done].
  destruct (ir_status r); [done| |];
    destruct (fs !! path_join approvedDir (ic_approved c)) as [[]|]; done.
Qed.

Lemma fixAll_dry_fs (checks : list IntegrityCheck) (repoPath approvedDir : path) (fs : fs_t) :
  snd (fixAll checks repoPath approvedDir true fs) = fs.
Proof.
  induction checks as [|c rest IH]; [done|]. simpl.
  pose proof (fixOne_dry_fs c repoPath approvedDir fs) as Hc.
  destruct (fixOne c repoPath approvedDir true fs) as [o fs1]. simpl in Hc. rewrite Hc.
  destruct (fixAll rest repoPath approvedDir true fs) as [plan fs2]. done.
Qed.

(** A drifted check is planned as an overwrite, dry run or not. *)
Lemma fixOne_drift (c : IntegrityCheck) (repoPath approvedDir : path) (dry : bool)
    (fs : fs_t) (r : IntegrityResult) :
  checkIntegrity c fs repoPath approvedDir = Ok r -> ir_status r = Drift ->
  fst (fixOne c repoPath approvedDir dry fs) = Some (Ok (Overwrite (ic_file c))).
Proof.
  intros Hr Hs. unfold fixOne. rewrite Hr, Hs.
  unfold checkIntegrity in Hr.
  destruct (fs !! path_join repoPath (ic_file c)) as [[a|]|]; try discriminate.
  - destruct (fs !! path_join approvedDir (ic_approved c)) as [[b'|]|]; try discriminate.
    done.
  - injection Hr as <-. discriminate.
Qed.

Lemma fixAll_dry_plan (checks : list IntegrityCheck) (repoPath approvedDir : path)
    (fs : fs_t) (c : IntegrityCheck) (r : IntegrityResult) :
  c ∈ checks -> checkIntegrity c fs repoPath approvedDir = Ok r -> ir_status r = Drift ->
  Ok (Overwrite (ic_file c)) ∈ fst (fixAll checks repoPath approvedDir true fs).
Proof.
  intros Hin Hr Hs. induction checks as [|c' rest IH]; [by apply not_elem_of_nil in Hin|].
  simpl.
  pose proof (fixOne_dry_fs c' repoPath approvedDir fs) as Hc.
  apply elem_of_cons in Hin as [->|Hin].
  - pose proof (fixOne_drift c' repoPath approvedDir true fs r Hr Hs) as Ho.
    destruct (fixOne c' repoPath approvedDir true fs) as [o fs1]. simpl in Hc, Ho.
    rewrite Hc, Ho. destruct (fixAll rest repoPath approvedDir true fs) as [plan fs2].
    simpl. apply elem_of_cons. by left.
  - specialize (IH Hin).
    destruct (fixOne c' repoPath approvedDir true fs) as [o fs1]. simpl in Hc. rewrite Hc.
    destruct (fixAll rest repoPath approvedDir true fs) as [plan fs2]. simpl in *.
    apply elem_of_app. by right.
Qed.

(** C9: a dry run of the fix engine leaves the filesystem exactly as it
    was (a drifted file keeps its content) and still reports the plan: every
    selected check in drift is listed as an overwrite. *)
Theorem runFix_dry_run_no_mutation (checks : list IntegrityCheck) (fs : fs_t)
    (repoPath approvedDir : path) (ff : option (list path)) :
  snd (runFix checks fs repoPath approvedDir {| dryRun := true; fileFilter := ff |}) = fs /\
  (forall c r, c ∈ selectChecks ff checks ->
     checkIntegrity c fs repoPath approvedDir = Ok r -> ir_status r = Drift ->
     Ok (Overwrite (ic_file c)) ∈
       fst (runFix checks fs repoPath approvedDir {| dryRun := true; fileFilter := ff |})).
Proof.
  unfold runFix. simpl. split.
  - apply fixAll_dry_fs.
  - intros c r Hin Hr Hs. by eapply fixAll_dry_plan.
Qed.

(** C10: when the approved file exists and is empty and the target holds
    other bytes, a real fix overwrites the target with the empty contents;
    the plan lists the overwrite, not a missing approved source. *)
Theorem runFix_empty_approved (c : IntegrityCheck) (fs : fs_t)
    (repoPath approvedDir : path) (A : bytes) :
  fs !! path_join repoPath (ic_file c) = Some (File A) -> A <> [] ->
  fs !! path_join approvedDir (ic_approved c) = Some (File []) ->
  runFix [c] fs repoPath approvedDir {| dryRun := false; fileFilter := None |} =
    ([Ok (Overwrite (ic_file c))], <[path_join repoPath (ic_file c) := File []]> fs) /\
  snd (runFix [c] fs repoPath approvedDir {| dryRun := false; fileFilter := None |})
    !! path_join repoPath (ic_file c) = Some (File []).
Proof.
  intros Ht HA Ha.
  assert (E : runFix [c] fs repoPath approvedDir {| dryRun := false; fileFilter := None |} =
              ([Ok (Overwrite (ic_file c))], <[path_join repoPath (ic_file c) := File []]> fs)).
  { unfold runFix, selectChecks, fixAll, fixOne, checkIntegrity. simpl.
    rewrite Ht, Ha. case_decide; done. }
  split; [done|]. rewrite E. simpl. apply lookup_insert_eq.
Qed.

(* ------------------------------------------------------------------ *)
(** ** The theorems at the tests' inputs *)

Lemma checkIntegrity_byte_exact_witness :
  fs_drift !! path_join REPO "CODEOWNERS" = Some (File team_a) /\
  fs_drift !! path_join APPROVED "CODEOWNERS" = Some (File team_b) /\
  exists r, checkIntegrity codeowners fs_drift REPO APPROVED = Ok r /\
    ir_file r = "CODEOWNERS" /\ ir_severity r = Critical /\
    (ir_status r = Drift <-> team_a <> team_b) /\ (ir_status r = Match <-> team_a = team_b).
Proof.
  assert (H1 : fs_drift !! path_join REPO "CODEOWNERS" = Some (File team_a))
    by (vm_compute; reflexivity).
  assert (H2 : fs_drift !! path_join APPROVED "CODEOWNERS" = Some (File team_b))
    by (vm_compute; reflexivity).
  split; [exact H1|]. split; [exact H2|].
  exact (proj2 (checkIntegrity_byte_exact codeowners fs_drift REPO APPROVED) team_a team_b H1 H2).
Defined.

Lemma detectDependencyChanges_same_commit_witness :
  resolveCommit git1 "HEAD" = Some "5e1f0c2a" /\ commits git1 !! "5e1f0c2a" = Some tree1 /\
  exists d, detectDependencyChanges git1 [eslint_pattern]
              {| baseCommit := "HEAD"; targetCommit := "HEAD" |} = Ok d /\
    hasChanges d = false /\ changes d = [].
Proof.
  assert (H1 : resolveCommit git1 "HEAD" = Some "5e1f0c2a") by (vm_compute; reflexivity).
  assert (H2 : commits git1 !! "5e1f0c2a" = Some tree1) by (vm_compute; reflexivity).
  split; [exact H1|]. split; [exact H2|].
  exact (detectDependencyChanges_same_commit git1 [eslint_pattern] "HEAD" "5e1f0c2a" tree1 H1 H2).
Defined.

Lemma runScan_gate_order_witness :
  runScan test_sh 60 ∅ REPO production_only internal_ctx [] = (skipResult production_only, []) /\
  runScan test_sh 60 ∅ REPO npm_test no_ctx [] = (skipResult npm_test, []) /\
  exists e, runScan test_sh 60 ∅ REPO conditional_scan no_ctx [] =
              (skipResult conditional_scan, [] ++ [e]) /\
            ex_cmd e = "test -f nonexistent-file".
Proof.
  split; [|split].
  - apply (proj1 (runScan_gate_order test_sh 60 ∅ REPO production_only internal_ctx [])
             ["production"]); [reflexivity|].
    intros t Ht. injection Ht as <-.
    apply (bool_decide_eq_false_1 _). vm_compute. reflexivity.
  - apply (proj1 (proj2 (runScan_gate_order test_sh 60 ∅ REPO npm_test no_ctx []))
             "package.json"); vm_compute; reflexivity.
  - apply (proj2 (proj2 (runScan_gate_order test_sh 60 ∅ REPO conditional_scan no_ctx []))
             "test -f nonexistent-file"); vm_compute; try reflexivity. discriminate.
Defined.

Lemma isScannableRepo_spec_witness :
  is_Some (fs_meta_only !! path_join REPO METADATA_YAML) /\
  findMetadataPath fs_meta_only REPO = Some (path_join REPO METADATA_YAML) /\
  fs_yml_only !! path_join REPO METADATA_YAML = None /\
  is_Some (fs_yml_only !! path_join REPO METADATA_YML) /\
  findMetadataPath fs_yml_only REPO = Some (path_join REPO METADATA_YML).
Proof.
  pose proof (isScannableRepo_spec fs_meta_only REPO) as Hm. cbv zeta in Hm.
  destruct Hm as (_ & _ & _ & Hm & _).
  pose proof (isScannableRepo_spec fs_yml_only REPO) as Hl. cbv zeta in Hl.
  destruct Hl as (_ & _ & _ & _ & Hl & _).
  assert (H1 : is_Some (fs_meta_only !! path_join REPO METADATA_YAML))
    by (eexists; vm_compute; reflexivity).
  assert (H2 : fs_yml_only !! path_join REPO METADATA_YAML = None)
    by (vm_compute; reflexivity).
  assert (H3 : is_Some (fs_yml_only !! path_join REPO METADATA_YML))
    by (eexists; vm_compute; reflexivity).
  split; [exact H1|]. split; [exact (Hm H1)|].
  split; [exact H2|]. split; [exact H3|]. exact (Hl H2 H3).
Defined.

Lemma runFix_dry_run_no_mutation_witness :
  snd (runFix [codeowners] fs_drift REPO APPROVED {| dryRun := true; fileFilter := None |})
    = fs_drift /\
  Ok (Overwrite "CODEOWNERS") ∈
    fst (runFix [codeowners] fs_drift REPO APPROVED {| dryRun := true; fileFilter := None |}).
Proof.
  destruct (runFix_dry_run_no_mutation [codeowners] fs_drift REPO APPROVED None) as [H1 H2].
  split; [exact H1|].
  apply (H2 codeowners (mkIntegrityResult codeowners Drift)).
  - simpl. apply list_elem_of_singleton. reflexivity.
  - vm_compute. reflexivity.
  - reflexivity.
Defined.

Lemma runFix_empty_approved_witness :
  runFix [codeowners] fs_empty_approved REPO APPROVED {| dryRun := false; fileFilter := None |} =
    ([Ok (Overwrite "CODEOWNERS")], <[path_join REPO "CODEOWNERS" := File []]> fs_empty_approved) /\
  snd (runFix [codeowners] fs_empty_approved REPO APPROVED {| dryRun := false; fileFilter := None |})
    !! path_join REPO "CODEOWNERS" = Some (File []).
Proof.
  apply (runFix_empty_approved codeowners fs_empty_approved REPO APPROVED (b "* @some-team
")).
  - vm_compute. reflexivity.
  - vm_compute. discriminate.
  - vm_compute. reflexivity.
Defined.
(* ------------------------------------------------------------------ *)
(** ** Test utilities *)

(** *** The repository name of [createMockRepo] *)

Lemma splitSlash_no_slash (s seg : string) : seg ∈ splitSlash s -> hasSlash seg = false.
Proof.
  revert seg. induction s as [|c s IH]; intros seg Hin; simpl in Hin.
  - apply list_elem_of_singleton in Hin as ->. done.
  - destruct (isSlash c) eqn:Ec.
    + apply elem_of_cons in Hin as [-> | Hin]; [done | by apply IH].
    + destruct (splitSlash s) as [|seg0 rest] eqn:Es.
      * apply list_elem_of_singleton in Hin as ->. simpl. by rewrite Ec.
      * apply elem_of_cons in Hin as [-> | Hin].
        -- simpl. rewrite Ec. apply IH. set_solver.
        -- apply IH. set_solver.
Qed.

Lemma splitSlash_plain (n : string) : hasSlash n = false -> splitSlash n = [n].
Proof.
  induction n as [|c n IH]; simpl; [done|].
  intros H. apply orb_false_iff in H as [Hc Hn]. rewrite Hc, IH by done. done.
Qed.

Lemma splitSlash_join (a n : string) :
  exists x pre, splitSlash (path_join a n) = x :: pre ++ splitSlash n.
Proof.
  unfold path_join. induction a as [|c a IH]; simpl.
  - exists "", []. done.
  - destruct IH as [x [pre IH]]. rewrite IH.
    destruct (isSlash c).
    + exists "", (x :: pre). done.
    + exists (String c x), pre. done.
Qed.

(** X5: the [name] [createMockRepo] returns, [tempDir.split("/").pop() ||
    "temp"], is never empty and never contains a ["/"]; for a directory
    [base/n] whose last segment [n] is nonempty, it is [n]. *)
Theorem repoName_last_segment (tempDir : path) :
  repoName tempDir <> "" /\ hasSlash (repoName tempDir) = false /\
  (forall base n, tempDir = path_join base n -> n <> "" -> hasSlash n = false ->
                  repoName tempDir = n).
Proof.
  split; [|split].
  - unfold repoName. destruct (last _); [|done].
    destruct (String.eqb s "") eqn:E; [done|]. by apply String.eqb_neq.
  - unfold repoName. destruct (last (splitSlash tempDir)) as [seg|] eqn:E; [|done].
    destruct (String.eqb seg ""); [done|].
    apply (splitSlash_no_slash tempDir). by apply last_Some_elem_of.
  - intros base n -> Hn Hs. unfold repoName.
    destruct (splitSlash_join base n) as [x [pre ->]].
    rewrite splitSlash_plain by done.
    rewrite last_cons, last_app. simpl.
    destruct (String.eqb n "") eqn:E; [by apply String.eqb_eq in E|done].
Qed.

(** *** [waitFor] *)

Lemma waitFor_loop_spec (condition : nat -> option bool) (now : nat -> Z) (start timeout : Z)
    (N : nat) (HN : (timeout <= now (S N) - start)%Z) (fuel k : nat)
    (Hk : k <= N) (Hf : N < fuel + k) :
  let inTime m := forall j, k <= j <= m -> (now (S j) - start < timeout)%Z in
  (forall m, waitFor_loop condition now start timeout fuel k = Ok m <->
     k <= m /\ inTime m /\ condition m = Some true /\
     forall j, k <= j < m -> condition j = Some false) /\
  (forall m, waitFor_loop condition now start timeout fuel k = Err (ConditionThrew m) <->
     k <= m /\ inTime m /\ condition m = None /\
     forall j, k <= j < m -> condition j = Some false) /\
  (waitFor_loop condition now start timeout fuel k = Err (ConditionNotMet timeout) <->
     forall m, k <= m -> inTime m -> condition m = Some false).
Proof.
  revert k Hk Hf. induction fuel as [|fuel IH]; intros k Hk Hf inTime; [lia|].
  simpl. destruct (Z.ltb (now (S k) - start) timeout) eqn:Et.
  - apply Z.ltb_lt in Et.
    assert (HkN : k <> N) by (intros ->; lia).
    destruct (condition k) as [[|]|] eqn:Ec.
    + split; [|split].
      * intros m. split.
        -- intros [= <-]. split; [lia|]. split; [intros j Hj; by replace j with k by lia|].
           split; [done|]. intros j Hj; lia.
        -- intros (Hkm & _ & Hm & Hb). destruct (decide (k = m)) as [->|]; [done|].
           rewrite Hb in Ec; [discriminate|lia].
      * intros m. split; [discriminate|]. intros (Hkm & _ & Hm & Hb).
        destruct (decide (k = m)) as [->|]; [congruence|]. rewrite Hb in Ec; [discriminate|lia].
      * split; [discriminate|]. intros H.
        rewrite H in Ec; [discriminate|lia|]. intros j Hj. by replace j with k by lia.
    + destruct (IH (S k) ltac:(lia) ltac:(lia)) as (IHok & IHthrew & IHnot).
      assert (Hext : forall m, k < m ->
                (inTime m <-> forall j, S k <= j <= m -> (now (S j) - start < timeout)%Z)).
      { intros m Hm. unfold inTime. split.
        - intros H j Hj. apply H. lia.
        - intros H j Hj. destruct (decide (j = k)) as [->|]; [done|]. apply H. lia. }
      split; [|split].
      * intros m. rewrite IHok. split.
        -- intros (Hkm & Hin & Hm & Hb). split; [lia|]. split; [exact (proj2 (Hext m ltac:(lia)) Hin)|].
           split; [done|]. intros j Hj. destruct (decide (j = k)) as [->|]; [done|].
           apply Hb. lia.
        -- intros (Hkm & Hin & Hm & Hb). destruct (decide (k = m)) as [->|]; [congruence|].
           split; [lia|]. split; [exact (proj1 (Hext m ltac:(lia)) Hin)|]. split; [done|].
           intros j Hj. apply Hb. lia.
      * intros m. rewrite IHthrew. split.
        -- intros (Hkm & Hin & Hm & Hb). split; [lia|]. split; [exact (proj2 (Hext m ltac:(lia)) Hin)|].
           split; [done|]. intros j Hj. destruct (decide (j = k)) as [->|]; [done|].
           apply Hb. lia.
        -- intros (Hkm & Hin & Hm & Hb). destruct (decide (k = m)) as [->|]; [congruence|].
           split; [lia|]. split; [exact (proj1 (Hext m ltac:(lia)) Hin)|]. split; [done|].
           intros j Hj. apply Hb. lia.
      * rewrite IHnot. split.
        -- intros H m Hm Hin. destruct (decide (m = k)) as [->|]; [done|].
           apply H; [lia|]. exact (proj1 (Hext m ltac:(lia)) Hin).
        -- intros H m Hm Hin. apply H; [lia|]. exact (proj2 (Hext m ltac:(lia)) Hin).
    + split; [|split].
      * intros m. split; [discriminate|]. intros (Hkm & _ & Hm & Hb).
        destruct (decide (k = m)) as [->|]; [congruence|]. rewrite Hb in Ec; [discriminate|lia].
      * intros m. split.
        -- intros [= <-]. split; [lia|]. split; [intros j Hj; by replace j with k by lia|].
           split; [done|]. intros j Hj; lia.
        -- intros (Hkm & _ & Hm & Hb). destruct (decide (k = m)) as [->|]; [done|].
           rewrite Hb in Ec; [discriminate|lia].
      * split; [discriminate|]. intros H.
        rewrite H in Ec; [discriminate|lia|]. intros j Hj. by replace j with k by lia.
  - apply Z.ltb_ge in Et. split; [|split].
    + intros m. split; [discriminate|]. intros (Hkm & Hin & _). specialize (Hin k). lia.
    + intros m. split; [discriminate|]. intros (Hkm & Hin & _). specialize (Hin k). lia.
    + split; [|done]. intros _ m Hm Hin. specialize (Hin k). lia.
Qed.

(** X6: for any readings of the clock, once one of the loop's readings is
    [timeout] ms or more after [start], [waitFor] resolves after the first
    poll [k] whose condition is [true], if every reading up to it was
    within the [timeout] and no poll before it failed; it rejects with the
    condition's error at the first poll that throws; and it rejects with
    "Condition not met within ${timeout}ms" exactly when every poll whose
    readings up to it were within the [timeout] gave [false]. *)
Theorem waitFor_spec (condition : nat -> option bool) (now : nat -> Z) (timeout : Z)
    (fuel N : nat) (HN : N < fuel) (Hdeadline : (timeout <= now (S N) - now 0%nat)%Z) :
  let inTime k := forall j, j <= k -> (now (S j) - now 0%nat < timeout)%Z in
  (forall k, waitFor condition now timeout fuel = Ok k <->
     inTime k /\ condition k = Some true /\ forall j, j < k -> condition j = Some false) /\
  (forall k, waitFor condition now timeout fuel = Err (ConditionThrew k) <->
     inTime k /\ condition k = None /\ forall j, j < k -> condition j = Some false) /\
  (waitFor condition now timeout fuel = Err (ConditionNotMet timeout) <->
     forall k, inTime k -> condition k = Some false).
Proof.
  intros inTime. unfold waitFor.
  destruct (waitFor_loop_spec condition now (now 0) timeout N Hdeadline fuel 0 ltac:(lia) ltac:(lia))
    as (Hok & Hthrew & Hnot).
  assert (Hin : forall k, inTime k <->
            (forall j, 0 <= j <= k -> (now (S j) - now 0%nat < timeout)%Z)).
  { intros k. unfold inTime. split; intros H j Hj; apply H; lia. }
  split; [|split].
  - intros k. rewrite Hok, Hin. split.
    + intros (_ & H1 & H2 & H3). split; [done|]. split; [done|]. intros j Hj. apply H3. lia.
    + intros (H1 & H2 & H3). split; [lia|]. split; [done|]. split; [done|].
      intros j Hj. apply H3. lia.
  - intros k. rewrite Hthrew, Hin. split.
    + intros (_ & H1 & H2 & H3). split; [done|]. split; [done|]. intros j Hj. apply H3. lia.
    + intros (H1 & H2 & H3). split; [lia|]. split; [done|]. split; [done|].
      intros j Hj. apply H3. lia.
  - rewrite Hnot. split.
    + intros H k Hk. apply H; [lia|]. by apply Hin.
    + intros H k _ Hk. apply H. by apply Hin.
Qed.

(** *** [exec] and the drift wrappers *)

(** X7: [driftExpectSuccess] returns exactly when [execSync] of [npx
    drift-toolkit <args>] returns, and [driftExpectFailure] exactly when it
    throws, so one of the two always throws; what [driftExpectSuccess]
    returns has exit code 0 and an empty [stderr], what
    [driftExpectFailure] returns a nonzero exit code, even when the thrown
    error has status 0 or none. *)
Theorem driftExpect_partition
    (execSync : string -> option path -> gmap string string -> SyncOutcome)
    (process_env : gmap string string) (args : string) (o : ExecOptions) :
  let out := execSync (String.append "npx drift-toolkit " args) (opt_cwd o)
               (childEnv (execEnv process_env o)) in
  ((exists r, driftExpectSuccess execSync process_env args o = Ok r) <->
   (exists s, out = Returned s)) /\
  ((exists r, driftExpectFailure execSync process_env args o = Ok r) <->
   ~ (exists s, out = Returned s)) /\
  (forall r, driftExpectSuccess execSync process_env args o = Ok r ->
             er_exitCode r = 0 /\ er_stderr r = "") /\
  (forall r, driftExpectFailure execSync process_env args o = Ok r -> 1 <= er_exitCode r).
Proof.
  intros out. unfold driftExpectSuccess, driftExpectFailure, drift, exec. fold out.
  destruct out as [s | e1 e2 st]; simpl.
  - split; [split; eauto|]. split; [split; [intros [? ?]; discriminate | intros H; exfalso; eauto]|].
    split; [intros r [= <-]; done | intros r; discriminate].
  - assert (Hst : Nat.eqb (match st with Some (S n) => S n | _ => 1 end) 0 = false)
      by (destruct st as [[|n]|]; done).
    rewrite Hst. simpl.
    split; [split; [intros [? ?]; discriminate | intros [? ?]; discriminate]|].
    split; [split; [intros _ [? ?]; discriminate | intros _; eauto]|].
    split; [intros r; discriminate|]. intros r [= <-]. simpl. destruct st as [[|n]|]; lia.
Qed.

(** X8: [driftWithToken] runs [npx drift-toolkit <args>] with a child
    environment where [GITHUB_TOKEN] is the token [getGitHubToken] read,
    whatever [process.env] and [options.env] hold; every other variable is
    the one of [options.env] when it has the key (absent from the child when
    its value there is [undefined]), else that of [process.env]. *)
Theorem driftWithToken_env
    (execSync : string -> option path -> gmap string string -> SyncOutcome)
    (process_env : gmap string string) (args : string) (o : ExecOptions) :
  exists env,
    driftWithToken execSync process_env args o =
      toExecResult (execSync (String.append "npx drift-toolkit " args) (opt_cwd o) env) /\
    env !! "GITHUB_TOKEN" = Some (getGitHubToken execSync process_env) /\
    forall k, k <> "GITHUB_TOKEN" ->
      env !! k = match (match opt_env o with Some e => e !! k | None => None end) with
                 | Some v => v
                 | None => process_env !! k
                 end.
Proof.
  unfold driftWithToken, exec, execEnv, childEnv. simpl. eexists. split; [reflexivity|]. split.
  - rewrite lookup_omap, lookup_union, lookup_insert_eq, lookup_fmap.
    by destruct (process_env !! "GITHUB_TOKEN").
  - intros k Hk. rewrite lookup_omap, lookup_union, lookup_insert_ne by congruence.
    rewrite lookup_fmap.
    destruct (opt_env o) as [e|]; simpl.
    + destruct (e !! k) as [[v|]|], (process_env !! k); done.
    + rewrite lookup_empty. by destruct (process_env !! k).
Qed.

(** *** [getGitHubToken] *)

















(** ** The helpers' theorems at the tests' inputs *)

(** The first reading of the loop [timeout] ms or more after [start] is
    the fifth, of poll 4. *)
Lemma waitFor_spec_witness :
  4 < 10 /\ (3005 <= clock_drift 5%nat - clock_drift 0%nat)%Z /\
  let inTime k := forall j, j <= k -> (clock_drift (S j) - clock_drift 0%nat < 3005)%Z in
  (forall k, waitFor from_poll_3 clock_drift 3005 10 = Ok k <->
     inTime k /\ from_poll_3 k = Some true /\ forall j, j < k -> from_poll_3 j = Some false) /\
  (forall k, waitFor from_poll_3 clock_drift 3005 10 = Err (ConditionThrew k) <->
     inTime k /\ from_poll_3 k = None /\ forall j, j < k -> from_poll_3 j = Some false) /\
  (waitFor from_poll_3 clock_drift 3005 10 = Err (ConditionNotMet 3005) <->
     forall k, inTime k -> from_poll_3 k = Some false).
Proof.
  assert (H1 : 4 < 10) by lia.
  assert (H2 : (3005 <= clock_drift 5%nat - clock_drift 0%nat)%Z) by (vm_compute; discriminate).
  split; [exact H1|]. split; [exact H2|].
  exact (waitFor_spec from_poll_3 clock_drift 3005 10 4 H1 H2).
Defined.

(** With the drifting clock, the condition that holds from poll 3 is not
    met in time: poll 3's reading is 3009 ms after [start]. *)
Example waitFor_drift_example :
  waitFor from_poll_3 clock_drift 3005 10 = Err (ConditionNotMet 3005).
Proof. vm_compute. reflexivity. Qed.

Example repoName_examples :
  repoName TMP = "drift-e2e-Ab12Cd" /\ repoName "/tmp/" = "temp".
Proof. vm_compute. split; reflexivity. Qed.

Example trim_examples :
  trim (String.append (utf8 [194; 160; 32]) (String.append "gho_abc" (utf8 [226; 128; 168; 10])))
  = "gho_abc".
Proof. vm_compute. reflexivity. Qed.
